(** * Replicate provider for the AI SDK: a shallow embedding of [index.ts]

    Strings are JavaScript strings, i.e. sequences of UTF-16 code units,
    modelled as [list N].  JavaScript objects used as string-keyed records
    (the request body's [input] object, [settings.extraInput]) are stdpp
    finite maps.  Fallible code returns a [result]; the two network calls
    are recorded in a request trace. *)

From Stdlib Require Import Ascii String List.
From stdpp Require Import base gmap list.

Import ListNotations.

(** ** JavaScript strings *)

(** A string literal of the source, as its code units. *)
Definition lit (s : string) : list N :=
  map (fun a => N.of_nat (nat_of_ascii a)) (list_ascii_of_string s).

Definition c_slash : N := 47.
Definition c_colon : N := 58.

(** Line terminators: JavaScript's regular-expression [.] matches every code
    unit except these. *)
Definition is_line_terminator (c : N) : bool :=
  (c =? 10)%N || (c =? 13)%N || (c =? 8232)%N || (c =? 8233)%N.

(** JavaScript truthiness of a string: every string but [""] is truthy. *)
Definition truthy (s : list N) : bool :=
  match s with [] => false | _ => true end.

(** [Array.prototype.join] on an array of strings. *)
Fixpoint js_join (sep : list N) (xs : list (list N)) : list N :=
  match xs with
  | [] => []
  | [x] => x
  | x :: rest => x ++ sep ++ js_join sep rest
  end.

(** ** Results and errors *)

Record error := mkError { message : list N }.

Inductive result (A : Type) :=
| Ok (a : A)
| Err (e : error).
Arguments Ok {A} a.
Arguments Err {A} e.

(** ** parseModelId

    [ref.match(/^(?<owner>[^/]+)\/(?<name>[^/:]+)(:(?<version>.+))?$/)].
    The owner class [[^/]] excludes the separator, so the owner is the whole
    prefix before the first ['/']; the name class [[^/:]+] is greedy and a
    shorter name would leave a name character where the pattern needs [':']
    or the end, so the name is the maximal run after the ['/'].  The matcher
    below follows the pattern left to right with these maximal spans. *)

Fixpoint span (p : N -> bool) (s : list N) : list N * list N :=
  match s with
  | [] => ([], [])
  | c :: rest =>
      if p c then let (a, b) := span p rest in (c :: a, b) else ([], s)
  end.

Definition owner_char (c : N) : bool := negb (c =? c_slash)%N.
Definition name_char (c : N) : bool :=
  negb (c =? c_slash)%N && negb (c =? c_colon)%N.
Definition version_char (c : N) : bool := negb (is_line_terminator c).

Record model_ref := mkModelRef {
  owner : list N;
  name : list N;
  version : option (list N)
}.

Definition regex_match (ref : list N) : option model_ref :=
  let (o, r1) := span owner_char ref in
  match o, r1 with
  | _ :: _, c :: r2 =>
      if (c =? c_slash)%N then
        let (n, r3) := span name_char r2 in
        match n, r3 with
        | _ :: _, [] => Some (mkModelRef o n None)
        | _ :: _, c' :: v =>
            if (c' =? c_colon)%N && truthy v && forallb version_char v
            then Some (mkModelRef o n (Some v))
            else None
        | _, _ => None
        end
      else None
  | _, _ => None
  end.

Definition invalid_reference_message (ref : list N) : list N :=
  lit "Invalid reference to model version: " ++ ref ++
  lit ". Expected format: owner/name or owner/name:version".

Definition parseModelId (ref : list N) : result model_ref :=
  match regex_match ref with
  | Some m => Ok m
  | None => Err (mkError (invalid_reference_message ref))
  end.

Example parse_ex1 :
  parseModelId (lit "meta/llama:abc") =
  Ok (mkModelRef (lit "meta") (lit "llama") (Some (lit "abc"))).
Proof. reflexivity. Qed.

Example parse_ex2 :
  parseModelId (lit "meta/llama") = Ok (mkModelRef (lit "meta") (lit "llama") None).
Proof. reflexivity. Qed.

(** ** Prompts (LanguageModelV1Prompt) *)

Inductive content_part :=
| TextPart (text : list N)
| ImagePart (image : list N)
| ToolCallPart (toolName : list N)
| ToolResultPart (toolName : list N).

Inductive prompt_message :=
| SystemMsg (content : list N)
| UserMsg (content : list content_part)
| AssistantMsg (content : list content_part)
| ToolMsg (content : list content_part).

Definition prompt := list prompt_message.

(** [message.content.filter((c) => c.type === "text").map((c) => c.text)] *)
Definition text_blocks (cs : list content_part) : list (list N) :=
  flat_map (fun c => match c with TextPart t => [t] | _ => [] end) cs.

(** [Array.prototype.toString] on an array of strings: [join(",")]. *)
Definition array_to_string (xs : list (list N)) : list N := js_join (lit ",") xs.

(** The loop of [transformPrompt]: the array [parts], whose elements are the
    arrays pushed for user and assistant messages. *)
Fixpoint transformPrompt_parts (p : prompt) : list (list (list N)) :=
  match p with
  | [] => []
  | SystemMsg _ :: rest => transformPrompt_parts rest
  | UserMsg cs :: rest => text_blocks cs :: transformPrompt_parts rest
  | AssistantMsg cs :: rest => text_blocks cs :: transformPrompt_parts rest
  | ToolMsg _ :: rest => transformPrompt_parts rest
  end.

(** [parts.join("")]: each element of [parts] is an array, converted to a
    string by [Array.prototype.toString]. *)
Definition transformPrompt (p : prompt) : list N :=
  js_join [] (map array_to_string (transformPrompt_parts p)).

Fixpoint transformSystemPrompt_parts (p : prompt) : list (list N) :=
  match p with
  | [] => []
  | SystemMsg c :: rest => c :: transformSystemPrompt_parts rest
  | _ :: rest => transformSystemPrompt_parts rest
  end.

(** [return parts.length ? parts.join("") : undefined;] *)
Definition transformSystemPrompt (p : prompt) : option (list N) :=
  let parts := transformSystemPrompt_parts p in
  match parts with
  | [] => None
  | _ => Some (js_join [] parts)
  end.

(** ** Settings and the request body *)

(** Values of [extraInput] ([Record<string, unknown>]) and of the body's
    [input] object: a string, or any other value, named by an opaque tag. *)
Inductive jsval :=
| JStr (s : list N)
| JOther (tag : N).

Record settings := mkSettings {
  promptName : option (list N);
  promptTransformer : option (prompt -> list N);
  systemPromptName : option (list N);
  systemPromptTransformer : option (prompt -> list N);
  extraInput : option (gmap (list N) jsval)
}.

(** [settings = {}] *)
Definition default_settings : settings := mkSettings None None None None None.

Record body := mkBody {
  body_version : option (list N);
  body_input : gmap (list N) jsval
}.

Definition default_to {A} (x : option A) (d : A) : A :=
  match x with Some a => a | None => d end.

(** Lines 151-156: [settings.promptTransformer ?? transformPrompt] applied
    to the prompt. *)
Definition transformed_prompt (s : settings) (p : prompt) : list N :=
  let transformer := default_to (promptTransformer s) transformPrompt in
  transformer p.

(** [const systemPromptTransformer = settings.promptTransformer ??
    transformSystemPrompt;] applied to the prompt. *)
Definition transformed_system_prompt (s : settings) (p : prompt) : option (list N) :=
  let systemPromptTransformer : prompt -> option (list N) :=
    match promptTransformer s with
    | Some f => fun q => Some (f q)
    | None => transformSystemPrompt
    end in
  systemPromptTransformer p.

(** [if (version)]: a version is used when present and truthy. *)
Definition version_truthy (m : model_ref) : bool :=
  match version m with Some v => truthy v | None => false end.

(** Lines 159-162. *)
Definition request_path (m : model_ref) : list N :=
  if version_truthy m then lit "/v1/predictions"
  else lit "/v1/models/" ++ owner m ++ lit "/" ++ name m ++ lit "/predictions".

(** Lines 164-176: [{ ...(version ? { version } : {}), input: { ...extraInput,
    [promptName ?? "prompt"]: transformedPrompt, ...(transformedSystemPrompt ?
    { [systemPromptName ?? "system_prompt"]: transformedSystemPrompt } :
    undefined) } }]; each spread or computed key overrides earlier keys. *)
Definition request_body (s : settings) (m : model_ref) (transformedPrompt : list N)
    (transformedSystemPrompt : option (list N)) : body :=
  let input0 : gmap (list N) jsval := default_to (extraInput s) ∅ in
  let input1 :=
    <[default_to (promptName s) (lit "prompt") := JStr transformedPrompt]> input0 in
  let input2 :=
    match transformedSystemPrompt with
    | Some t =>
        if truthy t
        then <[default_to (systemPromptName s) (lit "system_prompt") := JStr t]> input1
        else input1
    | None => input1
    end in
  mkBody (if version_truthy m then version m else None) input2.

(** Lines 151-176 of [makeLanguageModelPrediction]: the transformers run,
    then [parseModelId] (which may throw), then path and body. *)
Definition build_request (modelId : list N) (s : settings) (p : prompt)
  : result (list N * body) :=
  let transformedPrompt := transformed_prompt s p in
  let transformedSystemPrompt := transformed_system_prompt s p in
  match parseModelId modelId with
  | Err e => Err e
  | Ok m => Ok (request_path m, request_body s m transformedPrompt transformedSystemPrompt)
  end.

(** ** The stream transcoder (lines 204-231) *)

(** [ParsedEvent] of eventsource-parser: the [event] field is optional. *)
Record parsed_event := mkEvent {
  event : option (list N);
  data : list N
}.

(** [LanguageModelV1StreamPart], as far as this provider produces it. *)
Inductive stream_part :=
| TextDelta (textDelta : list N)
| Finish (finishReason : list N) (promptTokens completionTokens : N).

(** The [transform] callback on one event: the parts it enqueues and whether
    it calls [controller.terminate()]. *)
Definition transform (e : parsed_event) : list stream_part * bool :=
  if bool_decide (event e = Some (lit "done")) then
    ([Finish (lit "stop") 0 0], true)
  else if bool_decide (event e = Some (lit "output")) then
    ([TextDelta (data e)], false)
  else ([], false).

(** The [TransformStream] fed the events in arrival order: after
    [terminate()] its writable side is errored and no further chunk reaches
    [transform]. *)
Fixpoint run_transform (evs : list parsed_event) : list stream_part * bool :=
  match evs with
  | [] => ([], false)
  | e :: rest =>
      let (out, term) := transform e in
      if term then (out, true)
      else let (out', term') := run_transform rest in (out ++ out', term')
  end.

(** How the upstream event stream ends once its events are delivered. *)
Inductive upstream_end :=
| UpClose
| UpError (e : error).

Record sse_stream := mkSse {
  up_events : list parsed_event;
  up_end : upstream_end
}.

Inductive stream_end :=
| Closed
| Errored (e : error).

(** What a reader of the returned [ReadableStream] observes. *)
Record part_stream := mkPartStream {
  parts : list stream_part;
  ending : stream_end
}.

(** [response.body.pipeThrough(...)...pipeThrough(transcoder)]: a
    termination closes the readable side; otherwise the upstream's close or
    error is propagated. *)
Definition pipe_transcoder (u : sse_stream) : part_stream :=
  let (ps, term) := run_transform (up_events u) in
  mkPartStream ps
    (if term then Closed
     else match up_end u with UpClose => Closed | UpError e => Errored e end).

(** ** The two network calls *)

(** Body of a non-2xx initiation response, as [createJsonErrorResponseHandler]
    sees it: validating against [schema.error], empty, or anything else. *)
Inductive error_body :=
| EBDetail (detail : list N)
| EBEmpty
| EBOther (raw : list N).

(** The upstream's answer to the initiation POST. *)
Inductive init_response :=
| InitOk (streamUrl : list N)          (* 2xx, validates [schema.prediction] *)
| InitHttpError (statusText : list N) (b : error_body)  (* non-2xx *)
| InitFailure (e : error).             (* network failure, schema mismatch *)

(** The upstream's answer to the stream GET. *)
Inductive fetch_response :=
| FetchBody (s : sse_stream)
| FetchNoBody
| FetchFailure (e : error).

Record upstream := mkUpstream {
  init_response_of : init_response;
  stream_response_of : fetch_response
}.

Inductive request :=
| ReqInit (url : list N) (authorization : list N) (b : body)
| ReqStream (url : list N).

(** [createJsonErrorResponseHandler({ errorSchema: schema.error,
    errorToMessage: (error) => error.detail })] of provider-utils: the
    message of the thrown [APICallError]. *)
Definition failed_response_message (statusText : list N) (b : error_body) : list N :=
  match b with
  | EBDetail d => d
  | EBEmpty => statusText
  | EBOther _ => statusText
  end.

(** [makeLanguageModelPrediction]: the requests issued, in order, and the
    returned stream or the thrown error. *)
Definition makeLanguageModelPrediction (u : upstream) (modelId apiKey : list N)
    (s : settings) (p : prompt) : list request * result part_stream :=
  match build_request modelId s p with
  | Err e => ([], Err e)
  | Ok (path, b) =>
      let init := ReqInit (lit "https://api.replicate.com" ++ path)
                          (lit "Bearer " ++ apiKey) b in
      match init_response_of u with
      | InitHttpError st eb => ([init], Err (mkError (failed_response_message st eb)))
      | InitFailure e => ([init], Err e)
      | InitOk url =>
          let get := ReqStream url in
          match stream_response_of u with
          | FetchFailure e => ([init; get], Err e)
          | FetchNoBody => ([init; get], Err (mkError (lit "Missing response body")))
          | FetchBody sse => ([init; get], Ok (pipe_transcoder sse))
          end
      end
  end.

(** ** Entry points *)

Definition doStream (u : upstream) (modelId apiKey : list N) (s : settings)
    (p : prompt) : list request * result part_stream :=
  makeLanguageModelPrediction u modelId apiKey s p.

Record generate_result := mkGenerate {
  text : list N;
  gen_finishReason : list N;
  usage_promptTokens : N;
  usage_completionTokens : N
}.

(** The [for await] loop of [doGenerate]: the pushed fragments, and whether
    it left by [break]. *)
Fixpoint collect_output (ps : list stream_part) : list (list N) * bool :=
  match ps with
  | [] => ([], false)
  | TextDelta t :: rest => let (o, b) := collect_output rest in (t :: o, b)
  | _ :: _ => ([], true)
  end.

Definition consume (st : part_stream) : result generate_result :=
  let (output, broke) := collect_output (parts st) in
  let r := mkGenerate (js_join [] output) (lit "stop") 0 0 in
  if broke then Ok r
  else match ending st with
       | Closed => Ok r
       | Errored e => Err e
       end.

Definition doGenerate (u : upstream) (modelId apiKey : list N) (s : settings)
    (p : prompt) : list request * result generate_result :=
  let (trace, r) := makeLanguageModelPrediction u modelId apiKey s p in
  (trace, match r with Err e => Err e | Ok st => consume st end).

Example readme_example :
  let u := mkUpstream (InitOk (lit "https://stream"))
             (FetchBody (mkSse [mkEvent (Some (lit "output")) (lit "Hello");
                                mkEvent (Some (lit "output")) (lit " world");
                                mkEvent (Some (lit "done")) (lit "{}")] UpClose)) in
  snd (doStream u (lit "meta/llama") (lit "k") default_settings [UserMsg [TextPart (lit "hi")]])
  = Ok (mkPartStream [TextDelta (lit "Hello"); TextDelta (lit " world");
                      Finish (lit "stop") 0 0] Closed) /\
  snd (doGenerate u (lit "meta/llama") (lit "k") default_settings [UserMsg [TextPart (lit "hi")]])
  = Ok (mkGenerate (lit "Hello world") (lit "stop") 0 0).
Proof. split; reflexivity. Qed.

(** ** Properties *)

(** The parts the output events of a sequence stand for, in order. *)
Definition output_parts (evs : list parsed_event) : list stream_part :=
  flat_map (fun e => if bool_decide (event e = Some (lit "output"))
                     then [TextDelta (data e)] else []) evs.

Definition not_done (e : parsed_event) : Prop := event e <> Some (lit "done").

Lemma transform_not_done (e : parsed_event) :
  not_done e -> transform e = (output_parts [e], false).
Proof.
  intros H. unfold transform, output_parts; simpl.
  rewrite bool_decide_false by exact H.
  destruct (bool_decide (event e = Some (lit "output"))); reflexivity.
Qed.

Lemma run_transform_no_done (evs : list parsed_event) :
  Forall not_done evs -> run_transform evs = (output_parts evs, false).
Proof.
  induction 1 as [|e evs He Hevs IH]; [reflexivity|].
  simpl. rewrite (transform_not_done e He), IH.
  unfold output_parts; simpl. rewrite app_nil_r. reflexivity.
Qed.

Lemma run_transform_done (pre : list parsed_event) (e : parsed_event)
    (post : list parsed_event) :
  Forall not_done pre -> event e = Some (lit "done") ->
  run_transform (pre ++ e :: post) = (output_parts pre ++ [Finish (lit "stop") 0 0], true).
Proof.
  intros Hpre He. induction Hpre as [|e' pre' He' _ IH]; simpl.
  - unfold transform. rewrite He, bool_decide_true by reflexivity. reflexivity.
  - rewrite (transform_not_done e' He'), IH.
    unfold output_parts; simpl. rewrite app_nil_r, app_assoc. reflexivity.
Qed.

(** C1: the transcoder emits, in arrival order, one text-delta part carrying
    the raw data for each [output] event; the first [done] event yields one
    finish part (reason "stop", zero token counts) and terminates the stream,
    later events yielding nothing; any other event yields nothing and does
    not terminate. *)
Theorem transcoder_parts :
  (forall evs : list parsed_event,
     Forall not_done evs -> run_transform evs = (output_parts evs, false)) /\
  (forall (pre : list parsed_event) (e : parsed_event) (post : list parsed_event),
     Forall not_done pre -> event e = Some (lit "done") ->
     run_transform (pre ++ e :: post) =
       (output_parts pre ++ [Finish (lit "stop") 0 0], true)) /\
  (forall (u : sse_stream) (pre : list parsed_event) (e : parsed_event)
          (post : list parsed_event),
     up_events u = pre ++ e :: post -> Forall not_done pre ->
     event e = Some (lit "done") ->
     pipe_transcoder u = mkPartStream (output_parts pre ++ [Finish (lit "stop") 0 0]) Closed).
Proof.
  split; [exact run_transform_no_done|]. split; [exact run_transform_done|].
  intros u pre e post Hu Hpre He. unfold pipe_transcoder.
  rewrite Hu, (run_transform_done pre e post Hpre He). reflexivity.
Qed.

Lemma transcoder_parts_witness :
  Forall not_done [mkEvent (Some (lit "output")) (lit "a"); mkEvent (Some (lit "log")) (lit "x")] /\
  run_transform [mkEvent (Some (lit "output")) (lit "a"); mkEvent (Some (lit "log")) (lit "x");
                 mkEvent (Some (lit "done")) (lit ""); mkEvent (Some (lit "output")) (lit "b")]
  = ([TextDelta (lit "a"); Finish (lit "stop") 0 0], true).
Proof.
  assert (H : Forall not_done [mkEvent (Some (lit "output")) (lit "a");
                               mkEvent (Some (lit "log")) (lit "x")]).
  { repeat constructor; unfold not_done; simpl; discriminate. }
  split; [exact H|].
  exact (proj1 (proj2 transcoder_parts)
           [mkEvent (Some (lit "output")) (lit "a"); mkEvent (Some (lit "log")) (lit "x")]
           (mkEvent (Some (lit "done")) (lit "")) [mkEvent (Some (lit "output")) (lit "b")]
           H eq_refl).
Defined.

(** *** The model-reference parser *)

Definition span_rest_ok (p : N -> bool) (b : list N) : Prop :=
  match b with c :: _ => p c = false | [] => True end.

Lemma span_spec (p : N -> bool) (s a b : list N) :
  span p s = (a, b) -> s = a ++ b /\ forallb p a = true /\ span_rest_ok p b.
Proof.
  revert a b. induction s as [|c s IH]; intros a b H; simpl in H.
  - injection H as <- <-. repeat split.
  - destruct (p c) eqn:Hc.
    + destruct (span p s) as [a' b'] eqn:E. injection H as <- <-.
      destruct (IH a' b' eq_refl) as (-> & Ha & Hb).
      simpl. rewrite Hc, Ha. auto.
    + injection H as <- <-. simpl. auto.
Qed.

Lemma span_app (p : N -> bool) (a b : list N) :
  forallb p a = true -> span_rest_ok p b -> span p (a ++ b) = (a, b).
Proof.
  intros Ha Hb. induction a as [|c a IH]; simpl.
  - destruct b as [|c b]; [reflexivity|]. simpl in Hb |- *. rewrite Hb. reflexivity.
  - simpl in Ha. apply andb_prop in Ha as [Hc Ha]. rewrite Hc, (IH Ha). reflexivity.
Qed.

(** The language of the pattern with its named groups: the owner, the name
    and the version of a match, and the string they make up. *)
Definition regex_lang (ref : list N) (m : model_ref) : Prop :=
  owner m <> [] /\ forallb owner_char (owner m) = true /\
  name m <> [] /\ forallb name_char (name m) = true /\
  (forall v, version m = Some v -> v <> [] /\ forallb version_char v = true) /\
  ref = owner m ++ c_slash :: name m ++
          match version m with None => [] | Some v => c_colon :: v end.

Lemma regex_match_sound (ref : list N) (m : model_ref) :
  regex_match ref = Some m -> regex_lang ref m.
Proof.
  unfold regex_match.
  destruct (span owner_char ref) as [o r1] eqn:E1.
  apply span_spec in E1 as (-> & Ho & _).
  destruct o as [|c0 o]; [discriminate|].
  destruct r1 as [|c r2]; [discriminate|].
  destruct (c =? c_slash)%N eqn:Hc; [|discriminate].
  apply N.eqb_eq in Hc as ->.
  destruct (span name_char r2) as [n r3] eqn:E2.
  apply span_spec in E2 as (-> & Hn & Hr3).
  destruct n as [|c1 n]; [destruct r3; discriminate|].
  destruct r3 as [|c' v].
  - intros H. injection H as <-.
    unfold regex_lang; simpl.
    split; [discriminate|]. split; [exact Ho|].
    split; [discriminate|]. split; [exact Hn|].
    split; [intros v' Hv'; discriminate|].
    rewrite app_nil_r. reflexivity.
  - destruct ((c' =? c_colon)%N && truthy v && forallb version_char v) eqn:Hv;
      [|discriminate].
    apply andb_prop in Hv as [Hv Hall]. apply andb_prop in Hv as [Hcol Htr].
    apply N.eqb_eq in Hcol as ->.
    intros H. injection H as <-.
    unfold regex_lang; simpl.
    split; [discriminate|]. split; [exact Ho|].
    split; [discriminate|]. split; [exact Hn|].
    split; [|reflexivity].
    intros v' Hv'. injection Hv' as <-.
    split; [destruct v; discriminate|exact Hall].
Qed.

Lemma regex_match_complete (ref : list N) (m : model_ref) :
  regex_lang ref m -> regex_match ref = Some m.
Proof.
  destruct m as [o n ver].
  intros (Ho0 & Ho & Hn0 & Hn & Hv & ->). simpl in *.
  unfold regex_match.
  rewrite (span_app owner_char o (c_slash :: n ++ _) Ho eq_refl).
  destruct o as [|c0 o]; [congruence|].
  rewrite N.eqb_refl.
  destruct ver as [v|].
  - rewrite (span_app name_char n (c_colon :: v) Hn eq_refl).
    destruct n as [|c1 n]; [congruence|].
    destruct (Hv v eq_refl) as [Hv0 Hvc].
    rewrite N.eqb_refl, Hvc. destruct v; [congruence|]. reflexivity.
  - rewrite (span_app name_char n [] Hn I).
    destruct n as [|c1 n]; [congruence|]. reflexivity.
Qed.

(** The owner, the name and the version of a parse, and the failure. *)
Lemma parseModelId_ok (ref : list N) (m : model_ref) :
  parseModelId ref = Ok m <-> regex_lang ref m.
Proof.
  unfold parseModelId. split.
  - destruct (regex_match ref) eqn:E; intros H; [|discriminate].
    injection H as <-. apply regex_match_sound, E.
  - intros H. rewrite (regex_match_complete ref m H). reflexivity.
Qed.

Lemma parseModelId_err (ref : list N) (e : error) :
  parseModelId ref = Err e -> message e = invalid_reference_message ref.
Proof.
  unfold parseModelId. destruct (regex_match ref); intros H; [discriminate|].
  injection H as <-. reflexivity.
Qed.

Lemma parseModelId_version_truthy (ref : list N) (m : model_ref) (v : list N) :
  parseModelId ref = Ok m -> version m = Some v -> truthy v = true.
Proof.
  intros H Hv. apply parseModelId_ok in H as (_ & _ & _ & _ & H & _).
  destruct (H v Hv) as [Hne _]. destruct v; [congruence|reflexivity].
Qed.

(** C3 (amended): a string is parsed exactly when it matches the pattern:
    a non-empty owner without ['/'], ['/'], a non-empty name without ['/'] or
    [':'], and optionally [':'] followed by a non-empty version without line
    terminators; the owner, name and version returned are those substrings.
    Every other string fails with the invalid-reference message naming the
    string and the expected format. *)
Theorem parseModelId_spec :
  (forall (ref : list N) (m : model_ref), parseModelId ref = Ok m <-> regex_lang ref m) /\
  (forall (ref : list N) (e : error),
     parseModelId ref = Err e -> message e = invalid_reference_message ref).
Proof. split; [exact parseModelId_ok | exact parseModelId_err]. Qed.

Lemma parseModelId_spec_witness :
  parseModelId (lit "a/b/c") = Err (mkError (invalid_reference_message (lit "a/b/c"))) /\
  message (mkError (invalid_reference_message (lit "a/b/c"))) =
    invalid_reference_message (lit "a/b/c").
Proof.
  split; [reflexivity|].
  exact (proj2 parseModelId_spec (lit "a/b/c")
           (mkError (invalid_reference_message (lit "a/b/c"))) eq_refl).
Defined.

(** C3 counterexample: ["o/n:v<LF>w"] has owner ["o"] and name ["n"] without
    ['/'] and the version ["v<LF>w"] after its first [':'], but the pattern's
    [.+] does not match a line feed, so the parser fails on it. *)
Lemma parseModelId_rejects_line_feed_in_version :
  forallb owner_char (lit "o") = true /\ forallb name_char (lit "n") = true /\
  lit "o/n:v" ++ [10%N] ++ lit "w" =
    lit "o" ++ c_slash :: lit "n" ++ c_colon :: (lit "v" ++ [10%N] ++ lit "w") /\
  parseModelId (lit "o/n:v" ++ [10%N] ++ lit "w") <>
    Ok (mkModelRef (lit "o") (lit "n") (Some (lit "v" ++ [10%N] ++ lit "w"))).
Proof. split; [reflexivity|]. split; [reflexivity|]. split; [reflexivity|]. discriminate. Qed.

(** *** The request builder *)

(** C4: a reference with a version goes to [/v1/predictions] with the
    version in the body; one without goes to
    [/v1/models/{owner}/{name}/predictions] with no [version] key. *)
Theorem request_routing (modelId : list N) (s : settings) (p : prompt) (m : model_ref) :
  parseModelId modelId = Ok m ->
  (forall v : list N, version m = Some v ->
     exists b, build_request modelId s p = Ok (lit "/v1/predictions", b) /\
               body_version b = Some v) /\
  (version m = None ->
     exists b, build_request modelId s p =
                 Ok (lit "/v1/models/" ++ owner m ++ lit "/" ++ name m ++ lit "/predictions", b) /\
               body_version b = None).
Proof.
  intros Hm. unfold build_request. rewrite Hm. split.
  - intros v Hv.
    assert (Ht : version_truthy m = true).
    { unfold version_truthy. rewrite Hv. exact (parseModelId_version_truthy modelId m v Hm Hv). }
    eexists. split.
    + unfold request_path. rewrite Ht. reflexivity.
    + unfold request_body; simpl. rewrite Ht. exact Hv.
  - intros Hv. eexists. split.
    + unfold request_path, version_truthy. rewrite Hv. reflexivity.
    + unfold request_body, version_truthy; simpl. rewrite Hv. reflexivity.
Qed.

Lemma request_routing_witness :
  parseModelId (lit "meta/llama:abc") =
    Ok (mkModelRef (lit "meta") (lit "llama") (Some (lit "abc"))) /\
  exists b, build_request (lit "meta/llama:abc") default_settings [] =
              Ok (lit "/v1/predictions", b) /\ body_version b = Some (lit "abc").
Proof.
  split; [reflexivity|].
  exact (proj1 (request_routing (lit "meta/llama:abc") default_settings []
                  (mkModelRef (lit "meta") (lit "llama") (Some (lit "abc"))) eq_refl)
           (lit "abc") eq_refl).
Defined.

(** C5: the default prompt transformer converts the array of a message's
    text blocks with [Array.prototype.toString], so two text blocks of one
    user message come out joined by a comma. *)
Theorem transformPrompt_joins_blocks_with_comma :
  transformPrompt [UserMsg [TextPart (lit "a"); TextPart (lit "b")]] = lit "a,b".
Proof. reflexivity. Qed.

Lemma js_join_nil_concat (xs : list (list N)) : js_join [] xs = concat xs.
Proof.
  induction xs as [|x xs IH]; [reflexivity|].
  destruct xs as [|y ys]; simpl.
  - rewrite app_nil_r. reflexivity.
  - simpl in IH. rewrite IH. reflexivity.
Qed.

Lemma prompt_key_ne_system_prompt_key : lit "prompt" <> lit "system_prompt".
Proof. discriminate. Qed.

(** C6 counterexample: under default settings a prompt whose only system
    message is empty has a system message, but the empty concatenation is
    falsy and the body gets no [system_prompt] field. *)
Lemma default_body_drops_empty_system_prompt :
  exists path b,
    build_request (lit "o/n") default_settings [SystemMsg []; UserMsg [TextPart (lit "hi")]]
      = Ok (path, b) /\
    body_input b !! lit "system_prompt" = None.
Proof. do 2 eexists. split; [reflexivity|]. reflexivity. Qed.

(** C6 (amended): under default settings the body carries a
    [system_prompt] field exactly when the concatenated content of the
    system messages is non-empty, and then its value is that concatenation;
    with no system messages there is no such field. *)
Theorem default_body_system_prompt (modelId : list N) (p : prompt) (path : list N) (b : body) :
  build_request modelId default_settings p = Ok (path, b) ->
  body_input b !! lit "system_prompt" =
    (if truthy (concat (transformSystemPrompt_parts p))
     then Some (JStr (concat (transformSystemPrompt_parts p))) else None).
Proof.
  unfold build_request. destruct (parseModelId modelId) as [m|e]; [|discriminate].
  intros H. injection H as _ <-.
  unfold request_body, transformed_system_prompt, transformSystemPrompt; simpl.
  destruct (transformSystemPrompt_parts p) as [|c cs] eqn:Hp.
  - simpl. rewrite lookup_insert_ne by exact prompt_key_ne_system_prompt_key.
    apply lookup_empty.
  - rewrite js_join_nil_concat.
    destruct (truthy (concat (c :: cs))).
    + apply lookup_insert_eq.
    + rewrite lookup_insert_ne by exact prompt_key_ne_system_prompt_key.
      apply lookup_empty.
Qed.

Lemma default_body_system_prompt_witness :
  exists path b,
    build_request (lit "o/n") default_settings
      [SystemMsg (lit "be "); UserMsg [TextPart (lit "hi")]; SystemMsg (lit "brief")]
      = Ok (path, b) /\
    body_input b !! lit "system_prompt" = Some (JStr (lit "be brief")).
Proof.
  do 2 eexists. split; [reflexivity|].
  exact (default_body_system_prompt (lit "o/n")
           [SystemMsg (lit "be "); UserMsg [TextPart (lit "hi")]; SystemMsg (lit "brief")]
           _ _ eq_refl).
Defined.

(** [settings] with its [systemPromptTransformer] field replaced. *)
Definition with_systemPromptTransformer (g : option (prompt -> list N)) (s : settings)
  : settings :=
  mkSettings (promptName s) (promptTransformer s) (systemPromptName s) g (extraInput s).

(** C7: with a [promptTransformer] the system-prompt value is that same
    transformer applied to the prompt; without one it is
    [transformSystemPrompt]; the [systemPromptTransformer] field changes
    neither the request nor anything the entry points do. *)
Theorem system_prompt_uses_promptTransformer
    (u : upstream) (modelId apiKey : list N) (s : settings) (p : prompt) :
  (forall (f : prompt -> list N) (m : model_ref),
     promptTransformer s = Some f -> parseModelId modelId = Ok m ->
     build_request modelId s p = Ok (request_path m, request_body s m (f p) (Some (f p)))) /\
  (forall m : model_ref,
     promptTransformer s = None -> parseModelId modelId = Ok m ->
     build_request modelId s p =
       Ok (request_path m, request_body s m (transformPrompt p) (transformSystemPrompt p))) /\
  (forall g : option (prompt -> list N),
     build_request modelId (with_systemPromptTransformer g s) p = build_request modelId s p /\
     doStream u modelId apiKey (with_systemPromptTransformer g s) p =
       doStream u modelId apiKey s p /\
     doGenerate u modelId apiKey (with_systemPromptTransformer g s) p =
       doGenerate u modelId apiKey s p).
Proof.
  split; [|split].
  - intros f m Hf Hm. unfold build_request, transformed_prompt, transformed_system_prompt.
    rewrite Hf, Hm. reflexivity.
  - intros m Hf Hm. unfold build_request, transformed_prompt, transformed_system_prompt.
    rewrite Hf, Hm. reflexivity.
  - intros g. destruct s; split; [|split]; reflexivity.
Qed.

Lemma system_prompt_uses_promptTransformer_witness :
  build_request (lit "o/n") (mkSettings None (Some (fun _ => lit "X")) None None None)
    [UserMsg [TextPart (lit "hi")]] =
  Ok (request_path (mkModelRef (lit "o") (lit "n") None),
      request_body (mkSettings None (Some (fun _ => lit "X")) None None None)
        (mkModelRef (lit "o") (lit "n") None) (lit "X") (Some (lit "X"))).
Proof.
  exact (proj1 (system_prompt_uses_promptTransformer
                  (mkUpstream (InitFailure (mkError [])) FetchNoBody) (lit "o/n") []
                  (mkSettings None (Some (fun _ => lit "X")) None None None)
                  [UserMsg [TextPart (lit "hi")]])
           (fun _ => lit "X") (mkModelRef (lit "o") (lit "n") None) eq_refl eq_refl).
Defined.

(** C9: every [extraInput] pair reaches the body's [input] object, except
    that the prompt key maps to the transformed prompt and, when a system
    prompt is emitted, the system-prompt key maps to it (it is written last). *)
Theorem extra_input_merge (modelId : list N) (s : settings) (p : prompt) (path : list N)
    (b : body) (x : gmap (list N) jsval) (k : list N) (v : jsval) :
  build_request modelId s p = Ok (path, b) -> extraInput s = Some x -> x !! k = Some v ->
  body_input b !! k =
    (let pk := default_to (promptName s) (lit "prompt") in
     let spk := default_to (systemPromptName s) (lit "system_prompt") in
     let from_prompt :=
       if decide (pk = k) then Some (JStr (transformed_prompt s p)) else Some v in
     match transformed_system_prompt s p with
     | Some t => if truthy t && bool_decide (spk = k) then Some (JStr t) else from_prompt
     | None => from_prompt
     end).
Proof.
  unfold build_request. destruct (parseModelId modelId) as [m|e]; [|discriminate].
  intros H Hx Hk. injection H as _ <-.
  unfold request_body; simpl. rewrite Hx.
  destruct (transformed_system_prompt s p) as [t|]; [destruct (truthy t)|]; simpl.
  - rewrite lookup_insert.
    destruct (decide (default_to (systemPromptName s) (lit "system_prompt") = k)) as [E|E].
    + rewrite bool_decide_true by exact E. reflexivity.
    + rewrite bool_decide_false by exact E. rewrite lookup_insert, Hk. reflexivity.
  - rewrite lookup_insert, Hk. reflexivity.
  - rewrite lookup_insert, Hk. reflexivity.
Qed.

Lemma extra_input_merge_witness :
  let s := mkSettings None None None None
             (Some (<[lit "prompt" := JOther 1]> (<[lit "temperature" := JOther 2]> ∅))) in
  exists path b,
    build_request (lit "o/n") s [UserMsg [TextPart (lit "hi")]] = Ok (path, b) /\
    body_input b !! lit "temperature" = Some (JOther 2).
Proof.
  do 2 eexists. split; [reflexivity|].
  exact (extra_input_merge (lit "o/n")
           (mkSettings None None None None
              (Some (<[lit "prompt" := JOther 1]> (<[lit "temperature" := JOther 2]> ∅))))
           [UserMsg [TextPart (lit "hi")]] _ _
           (<[lit "prompt" := JOther 1]> (<[lit "temperature" := JOther 2]> ∅))
           (lit "temperature") (JOther 2) eq_refl eq_refl eq_refl).
Defined.

(** *** Failures of the initiation call *)

(** C8: a non-2xx initiation response whose body validates as
    [{ detail: string }] makes both entry points fail with that detail as
    the message, after the single initiation request and before any stream
    request. *)
Theorem init_error_surfaces_detail (u : upstream) (modelId apiKey : list N) (s : settings)
    (p : prompt) (path : list N) (b : body) (statusText detail : list N) :
  build_request modelId s p = Ok (path, b) ->
  init_response_of u = InitHttpError statusText (EBDetail detail) ->
  doStream u modelId apiKey s p =
    ([ReqInit (lit "https://api.replicate.com" ++ path) (lit "Bearer " ++ apiKey) b],
     Err (mkError detail)) /\
  doGenerate u modelId apiKey s p =
    ([ReqInit (lit "https://api.replicate.com" ++ path) (lit "Bearer " ++ apiKey) b],
     Err (mkError detail)).
Proof.
  intros Hb Hu. unfold doGenerate, doStream, makeLanguageModelPrediction.
  rewrite Hb, Hu. split; reflexivity.
Qed.

Lemma init_error_surfaces_detail_witness :
  let u := mkUpstream (InitHttpError (lit "Too Many Requests") (EBDetail (lit "rate limited")))
             (FetchBody (mkSse [] UpClose)) in
  doStream u (lit "o/n") (lit "k") default_settings [] =
    ([ReqInit (lit "https://api.replicate.com/v1/models/o/n/predictions") (lit "Bearer k")
        (request_body default_settings (mkModelRef (lit "o") (lit "n") None)
           (transformPrompt []) None)],
     Err (mkError (lit "rate limited"))) /\
  doGenerate u (lit "o/n") (lit "k") default_settings [] =
    ([ReqInit (lit "https://api.replicate.com/v1/models/o/n/predictions") (lit "Bearer k")
        (request_body default_settings (mkModelRef (lit "o") (lit "n") None)
           (transformPrompt []) None)],
     Err (mkError (lit "rate limited"))).
Proof.
  exact (init_error_surfaces_detail
           (mkUpstream (InitHttpError (lit "Too Many Requests") (EBDetail (lit "rate limited")))
              (FetchBody (mkSse [] UpClose)))
           (lit "o/n") (lit "k") default_settings [] (lit "/v1/models/o/n/predictions")
           (request_body default_settings (mkModelRef (lit "o") (lit "n") None)
              (transformPrompt []) None)
           (lit "Too Many Requests") (lit "rate limited") eq_refl eq_refl).
Defined.

(** *** doGenerate against doStream *)

Definition is_text_delta (x : stream_part) : Prop :=
  match x with TextDelta _ => True | Finish _ _ _ => False end.

(** [ts] are the [textDelta] fields of the text-delta parts of [ps] that
    come before its first part of another kind. *)
Definition leading_deltas (ps : list stream_part) (ts : list (list N)) : Prop :=
  exists rest, ps = map TextDelta ts ++ rest /\
    match rest with [] => True | x :: _ => ~ is_text_delta x end.

Lemma run_transform_unterminated (evs : list parsed_event) (ps : list stream_part) :
  run_transform evs = (ps, false) -> Forall is_text_delta ps.
Proof.
  revert ps. induction evs as [|e evs IH]; intros ps H; simpl in H.
  - injection H as <-. constructor.
  - unfold transform in H.
    destruct (bool_decide (event e = Some (lit "done"))); [discriminate|].
    destruct (bool_decide (event e = Some (lit "output")));
      destruct (run_transform evs) as [ps' t'] eqn:E; injection H as <- ->;
      specialize (IH ps' eq_refl); simpl; try (constructor; [exact I|]); exact IH.
Qed.

Lemma pipe_transcoder_errored (u : sse_stream) (e : error) :
  ending (pipe_transcoder u) = Errored e -> Forall is_text_delta (parts (pipe_transcoder u)).
Proof.
  unfold pipe_transcoder. destruct (run_transform (up_events u)) as [ps []] eqn:E;
    simpl; [discriminate|].
  intros _. exact (run_transform_unterminated _ _ E).
Qed.

Lemma collect_output_leading (ps : list stream_part) (o : list (list N)) (b : bool) :
  collect_output ps = (o, b) -> leading_deltas ps o.
Proof.
  revert o b. induction ps as [|x ps IH]; intros o b H; simpl in H.
  - injection H as <- _. exists []. split; [reflexivity|exact I].
  - destruct x as [t|r pt ct].
    + destruct (collect_output ps) as [o' b'] eqn:E. injection H as <- _.
      destruct (IH o' b' eq_refl) as (rest & -> & Hr).
      exists rest. split; [reflexivity|exact Hr].
    + injection H as <- _. exists (Finish r pt ct :: ps). split; [reflexivity|].
      simpl. tauto.
Qed.

Lemma collect_output_deltas (ps : list stream_part) :
  Forall is_text_delta ps -> snd (collect_output ps) = false.
Proof.
  induction 1 as [|x ps Hx _ IH]; [reflexivity|].
  destruct x as [t|]; [|contradiction]. simpl.
  destruct (collect_output ps). exact IH.
Qed.

Lemma makeLanguageModelPrediction_ok (u : upstream) (modelId apiKey : list N) (s : settings)
    (p : prompt) (tr : list request) (st : part_stream) :
  makeLanguageModelPrediction u modelId apiKey s p = (tr, Ok st) ->
  exists sse, st = pipe_transcoder sse.
Proof.
  unfold makeLanguageModelPrediction.
  destruct (build_request modelId s p) as [[path b]|e]; [|discriminate].
  destruct (init_response_of u); try discriminate.
  destruct (stream_response_of u) as [sse| |]; try discriminate.
  intros H. injection H as _ <-. exists sse. reflexivity.
Qed.

Lemma consume_err (st : part_stream) (sse : sse_stream) (e : error) :
  st = pipe_transcoder sse -> (consume st = Err e <-> ending st = Errored e).
Proof.
  intros ->. unfold consume.
  destruct (collect_output (parts (pipe_transcoder sse))) as [o b] eqn:E.
  split.
  - destruct b; [discriminate|].
    destruct (ending (pipe_transcoder sse)); [discriminate|].
    intros H. injection H as ->. reflexivity.
  - intros Hend.
    pose proof (collect_output_deltas _ (pipe_transcoder_errored sse e Hend)) as Hb.
    rewrite E in Hb. simpl in Hb. subst b. rewrite Hend. reflexivity.
Qed.

(** C2: [doGenerate] makes the same requests as [doStream]; it fails with
    an error exactly when [doStream] fails with it or returns a stream that
    ends with it; and on success it returns the concatenation of the
    text-delta parts the stream yields before its first other part, with
    finish reason "stop" and zero usage. *)
Theorem generate_refines_stream (u : upstream) (modelId apiKey : list N) (s : settings)
    (p : prompt) :
  fst (doGenerate u modelId apiKey s p) = fst (doStream u modelId apiKey s p) /\
  (forall e : error,
     snd (doGenerate u modelId apiKey s p) = Err e <->
     (snd (doStream u modelId apiKey s p) = Err e \/
      exists st, snd (doStream u modelId apiKey s p) = Ok st /\ ending st = Errored e)) /\
  (forall g : generate_result,
     snd (doGenerate u modelId apiKey s p) = Ok g ->
     exists st ts, snd (doStream u modelId apiKey s p) = Ok st /\
       leading_deltas (parts st) ts /\ g = mkGenerate (concat ts) (lit "stop") 0 0).
Proof.
  unfold doGenerate, doStream.
  destruct (makeLanguageModelPrediction u modelId apiKey s p) as [tr r] eqn:E.
  split; [reflexivity|]. simpl. split.
  - intros e. destruct r as [st|e0].
    + destruct (makeLanguageModelPrediction_ok _ _ _ _ _ _ _ E) as [sse Hst].
      rewrite (consume_err st sse e Hst). split.
      * intros H. right. exists st. split; [reflexivity|exact H].
      * intros [H|(st' & H & Hend)]; [discriminate|]. injection H as <-. exact Hend.
    + split; [intros H; left; injection H as ->; reflexivity|].
      intros [H|(st' & H & _)]; [injection H as ->; reflexivity|discriminate].
  - intros g. destruct r as [st|e0]; [|discriminate].
    unfold consume. destruct (collect_output (parts st)) as [o b] eqn:Ec.
    intros Hg. exists st, o. split; [reflexivity|].
    split; [exact (collect_output_leading _ _ _ Ec)|].
    rewrite <- js_join_nil_concat.
    destruct b; [injection Hg as <-; reflexivity|].
    destruct (ending st); [injection Hg as <-; reflexivity|discriminate].
Qed.

(** *** An upstream stream that ends without [done] *)

Definition output_texts (evs : list parsed_event) : list (list N) :=
  flat_map (fun e => if bool_decide (event e = Some (lit "output")) then [data e] else []) evs.

Lemma output_parts_texts (evs : list parsed_event) :
  output_parts evs = map TextDelta (output_texts evs).
Proof.
  induction evs as [|e evs IH]; [reflexivity|].
  unfold output_parts, output_texts in *; simpl.
  rewrite map_app, IH.
  destruct (bool_decide (event e = Some (lit "output"))); reflexivity.
Qed.

Lemma collect_output_map (ts : list (list N)) :
  collect_output (map TextDelta ts) = (ts, false).
Proof.
  induction ts as [|t ts IH]; [reflexivity|]. simpl. rewrite IH. reflexivity.
Qed.

(** C10: when the upstream closes the event stream without a [done] event,
    [doStream]'s stream yields only text deltas and closes without a finish
    part, and [doGenerate] succeeds with their concatenation, finish reason
    "stop" and zero usage. *)
Theorem stream_closed_without_done (u : upstream) (modelId apiKey : list N) (s : settings)
    (p : prompt) (path : list N) (b : body) (url : list N) (evs : list parsed_event) :
  build_request modelId s p = Ok (path, b) ->
  init_response_of u = InitOk url ->
  stream_response_of u = FetchBody (mkSse evs UpClose) ->
  Forall not_done evs ->
  exists ts : list (list N),
    snd (doStream u modelId apiKey s p) = Ok (mkPartStream (map TextDelta ts) Closed) /\
    snd (doGenerate u modelId apiKey s p) = Ok (mkGenerate (concat ts) (lit "stop") 0 0).
Proof.
  intros Hb Hi Hs Hevs. exists (output_texts evs).
  unfold doGenerate, doStream, makeLanguageModelPrediction.
  rewrite Hb, Hi, Hs.
  unfold pipe_transcoder; simpl.
  rewrite (run_transform_no_done evs Hevs), output_parts_texts.
  split; [reflexivity|].
  unfold consume; simpl. rewrite collect_output_map, js_join_nil_concat. reflexivity.
Qed.

Lemma stream_closed_without_done_witness :
  let u := mkUpstream (InitOk (lit "https://stream"))
             (FetchBody (mkSse [mkEvent (Some (lit "output")) (lit "Hel");
                                mkEvent None (lit "x");
                                mkEvent (Some (lit "output")) (lit "lo")] UpClose)) in
  exists ts : list (list N),
    snd (doStream u (lit "o/n") (lit "k") default_settings []) =
      Ok (mkPartStream (map TextDelta ts) Closed) /\
    snd (doGenerate u (lit "o/n") (lit "k") default_settings []) =
      Ok (mkGenerate (concat ts) (lit "stop") 0 0).
Proof.
  exact (stream_closed_without_done
           (mkUpstream (InitOk (lit "https://stream"))
              (FetchBody (mkSse [mkEvent (Some (lit "output")) (lit "Hel");
                                 mkEvent None (lit "x");
                                 mkEvent (Some (lit "output")) (lit "lo")] UpClose)))
           (lit "o/n") (lit "k") default_settings [] _ _ (lit "https://stream") _
           eq_refl eq_refl eq_refl
           ltac:(repeat constructor; unfold not_done; simpl; discriminate)).
Defined.

Lemma generate_refines_stream_witness :
  let u := mkUpstream (InitOk (lit "https://stream"))
             (FetchBody (mkSse [mkEvent (Some (lit "output")) (lit "Hello");
                                mkEvent (Some (lit "output")) (lit " world");
                                mkEvent (Some (lit "done")) (lit "{}")] UpClose)) in
  snd (doGenerate u (lit "o/n") (lit "k") default_settings []) =
    Ok (mkGenerate (lit "Hello world") (lit "stop") 0 0) /\
  exists st ts, snd (doStream u (lit "o/n") (lit "k") default_settings []) = Ok st /\
    leading_deltas (parts st) ts /\
    mkGenerate (lit "Hello world") (lit "stop") 0 0 = mkGenerate (concat ts) (lit "stop") 0 0.
Proof.
  split; [reflexivity|].
  exact (proj2 (proj2 (generate_refines_stream
           (mkUpstream (InitOk (lit "https://stream"))
              (FetchBody (mkSse [mkEvent (Some (lit "output")) (lit "Hello");
                                 mkEvent (Some (lit "output")) (lit " world");
                                 mkEvent (Some (lit "done")) (lit "{}")] UpClose)))
           (lit "o/n") (lit "k") default_settings []))
           (mkGenerate (lit "Hello world") (lit "stop") 0 0) eq_refl).
Defined.

(** ** Further properties of the code *)

(** *** The prompt transformers *)

Definition carries_text (msg : prompt_message) : bool :=
  match msg with UserMsg _ | AssistantMsg _ => true | _ => false end.

Definition is_system (msg : prompt_message) : bool :=
  match msg with SystemMsg _ => true | _ => false end.

Lemma transformPrompt_parts_filter (p : prompt) :
  transformPrompt_parts (List.filter carries_text p) = transformPrompt_parts p.
Proof. induction p as [|[] p IH]; simpl; rewrite ?IH; reflexivity. Qed.

(** [transformPrompt] skips system and tool messages: dropping them from the
    prompt does not change the result. *)
Theorem transformPrompt_ignores_system_and_tool (p : prompt) :
  transformPrompt (List.filter carries_text p) = transformPrompt p.
Proof. unfold transformPrompt. rewrite transformPrompt_parts_filter. reflexivity. Qed.

Lemma transformPrompt_parts_app (p q : prompt) :
  transformPrompt_parts (p ++ q) = transformPrompt_parts p ++ transformPrompt_parts q.
Proof. induction p as [|[] p IH]; simpl; rewrite ?IH; reflexivity. Qed.

(** [transformPrompt] of two prompts one after the other is the concatenation
    of their results: [parts.join("")] puts nothing between messages. *)
Theorem transformPrompt_app (p q : prompt) :
  transformPrompt (p ++ q) = transformPrompt p ++ transformPrompt q.
Proof.
  unfold transformPrompt. rewrite !js_join_nil_concat, transformPrompt_parts_app, map_app.
  apply concat_app.
Qed.

Definition message_text_blocks (msg : prompt_message) : list (list N) :=
  match msg with UserMsg cs | AssistantMsg cs => text_blocks cs | _ => [] end.

(** When no user or assistant message has more than one text block,
    [transformPrompt] is the plain concatenation of the text blocks in
    message order. *)
Theorem transformPrompt_single_blocks (p : prompt) :
  Forall (fun msg => length (message_text_blocks msg) <= 1) p ->
  transformPrompt p = concat (flat_map message_text_blocks p).
Proof.
  unfold transformPrompt. rewrite js_join_nil_concat.
  induction 1 as [|msg p Hm _ IH]; [reflexivity|].
  destruct msg as [c|cs|cs|cs]; simpl; rewrite ?IH; try reflexivity;
    simpl in Hm; rewrite concat_app;
    (destruct (text_blocks cs) as [|t [|t' ts]]; simpl in *;
       [reflexivity|rewrite app_nil_r; reflexivity|lia]).
Qed.

Lemma transformPrompt_single_blocks_witness :
  Forall (fun msg => length (message_text_blocks msg) <= 1)
    [UserMsg [TextPart (lit "a"); ImagePart (lit "img")]; ToolMsg [];
     AssistantMsg [TextPart (lit "b")]] /\
  transformPrompt [UserMsg [TextPart (lit "a"); ImagePart (lit "img")]; ToolMsg [];
                   AssistantMsg [TextPart (lit "b")]] = lit "ab".
Proof.
  assert (H : Forall (fun msg => length (message_text_blocks msg) <= 1)
                [UserMsg [TextPart (lit "a"); ImagePart (lit "img")]; ToolMsg [];
                 AssistantMsg [TextPart (lit "b")]]).
  { repeat constructor; simpl; lia. }
  split; [exact H|].
  exact (transformPrompt_single_blocks _ H).
Defined.

Lemma transformSystemPrompt_parts_filter (p : prompt) :
  transformSystemPrompt_parts (List.filter is_system p) = transformSystemPrompt_parts p.
Proof. induction p as [|[] p IH]; simpl; rewrite ?IH; reflexivity. Qed.

(** [transformSystemPrompt] is [undefined] exactly when the prompt has no
    system message, and only the system messages matter. *)
Theorem transformSystemPrompt_none_iff (p : prompt) :
  (transformSystemPrompt p = None <-> Forall (fun msg => is_system msg = false) p) /\
  transformSystemPrompt (List.filter is_system p) = transformSystemPrompt p.
Proof.
  split.
  - unfold transformSystemPrompt. induction p as [|[] p IH]; simpl.
    + split; auto.
    + split; [discriminate|]. intros H. inversion H; discriminate.
    + rewrite IH. split; [intros H; constructor; auto|intros H; inversion H; auto].
    + rewrite IH. split; [intros H; constructor; auto|intros H; inversion H; auto].
    + rewrite IH. split; [intros H; constructor; auto|intros H; inversion H; auto].
  - unfold transformSystemPrompt. rewrite transformSystemPrompt_parts_filter. reflexivity.
Qed.

(** *** The body's [input] object *)

(** The prompt key maps to the transformed prompt, unless an emitted system
    prompt is written under the same key after it. *)
Theorem body_prompt_key (modelId : list N) (s : settings) (p : prompt) (path : list N)
    (b : body) :
  build_request modelId s p = Ok (path, b) ->
  (forall t, transformed_system_prompt s p = Some t -> truthy t = true ->
     default_to (systemPromptName s) (lit "system_prompt") <>
     default_to (promptName s) (lit "prompt")) ->
  body_input b !! default_to (promptName s) (lit "prompt") =
    Some (JStr (transformed_prompt s p)).
Proof.
  unfold build_request. destruct (parseModelId modelId) as [m|e]; [|discriminate].
  intros H Hne. injection H as _ <-. unfold request_body; simpl.
  destruct (transformed_system_prompt s p) as [t|] eqn:Et.
  - destruct (truthy t) eqn:Ht.
    + rewrite lookup_insert_ne by exact (Hne t eq_refl Ht). apply lookup_insert_eq.
    + apply lookup_insert_eq.
  - apply lookup_insert_eq.
Qed.

Lemma body_prompt_key_witness :
  exists path b,
    build_request (lit "o/n") default_settings
      [SystemMsg (lit "sys"); UserMsg [TextPart (lit "hi")]] = Ok (path, b) /\
    body_input b !! lit "prompt" = Some (JStr (lit "hi")).
Proof.
  do 2 eexists. split; [reflexivity|].
  exact (body_prompt_key (lit "o/n") default_settings
           [SystemMsg (lit "sys"); UserMsg [TextPart (lit "hi")]] _ _ eq_refl
           (fun t _ _ H => prompt_key_ne_system_prompt_key (eq_sym H))).
Defined.



(** *** The entry points on the other upstream behaviours *)

(** An invalid model reference makes both entry points fail with the
    invalid-reference message before any request is made. *)
Theorem invalid_reference_no_request (u : upstream) (modelId apiKey : list N) (s : settings)
    (p : prompt) (e : error) :
  parseModelId modelId = Err e ->
  message e = invalid_reference_message modelId /\
  doStream u modelId apiKey s p = ([], Err e) /\
  doGenerate u modelId apiKey s p = ([], Err e).
Proof.
  intros He. split; [exact (parseModelId_err modelId e He)|].
  unfold doGenerate, doStream, makeLanguageModelPrediction, build_request.
  rewrite He. split; reflexivity.
Qed.

Lemma invalid_reference_no_request_witness :
  parseModelId (lit "llama") = Err (mkError (invalid_reference_message (lit "llama"))) /\
  doStream (mkUpstream (InitOk []) FetchNoBody) (lit "llama") [] default_settings [] =
    ([], Err (mkError (invalid_reference_message (lit "llama")))).
Proof.
  split; [reflexivity|].
  exact (proj1 (proj2 (invalid_reference_no_request (mkUpstream (InitOk []) FetchNoBody)
           (lit "llama") [] default_settings []
           (mkError (invalid_reference_message (lit "llama"))) eq_refl))).
Defined.

(** After a successful initiation the requests are the POST to
    [https://api.replicate.com] plus the built path, with the bearer token,
    then one GET to the stream URL of the response; a stream response without
    a body makes both entry points fail with "Missing response body". *)
Theorem requests_after_initiation (u : upstream) (modelId apiKey : list N) (s : settings)
    (p : prompt) (path : list N) (b : body) (url : list N) :
  build_request modelId s p = Ok (path, b) ->
  init_response_of u = InitOk url ->
  fst (doStream u modelId apiKey s p) =
    [ReqInit (lit "https://api.replicate.com" ++ path) (lit "Bearer " ++ apiKey) b;
     ReqStream url] /\
  fst (doGenerate u modelId apiKey s p) = fst (doStream u modelId apiKey s p) /\
  (stream_response_of u = FetchNoBody ->
   snd (doStream u modelId apiKey s p) = Err (mkError (lit "Missing response body")) /\
   snd (doGenerate u modelId apiKey s p) = Err (mkError (lit "Missing response body"))).
Proof.
  intros Hb Hi. unfold doGenerate, doStream, makeLanguageModelPrediction.
  rewrite Hb, Hi.
  destruct (stream_response_of u) as [sse| |e]; simpl;
    (split; [reflexivity|]); (split; [reflexivity|]);
    intros H; (discriminate || (split; reflexivity)).
Qed.

Lemma requests_after_initiation_witness :
  fst (doStream (mkUpstream (InitOk (lit "u")) FetchNoBody) (lit "o/n") (lit "k")
         default_settings []) =
    [ReqInit (lit "https://api.replicate.com/v1/models/o/n/predictions") (lit "Bearer k")
       (request_body default_settings (mkModelRef (lit "o") (lit "n") None)
          (transformPrompt []) None);
     ReqStream (lit "u")].
Proof.
  exact (proj1 (requests_after_initiation (mkUpstream (InitOk (lit "u")) FetchNoBody)
           (lit "o/n") (lit "k") default_settings []
           (lit "/v1/models/o/n/predictions")
           (request_body default_settings (mkModelRef (lit "o") (lit "n") None)
              (transformPrompt []) None)
           (lit "u") eq_refl eq_refl)).
Defined.

(** Once a [done] event arrives, how the upstream ends no longer matters:
    [doStream] yields the text deltas of the [output] events before it and
    one finish part and closes, and [doGenerate] returns their
    concatenation, even when the upstream then fails. *)
Theorem done_shields_upstream_end (u : upstream) (modelId apiKey : list N) (s : settings)
    (p : prompt) (path : list N) (b : body) (url : list N)
    (pre : list parsed_event) (e : parsed_event) (post : list parsed_event)
    (fin : upstream_end) :
  build_request modelId s p = Ok (path, b) ->
  init_response_of u = InitOk url ->
  stream_response_of u = FetchBody (mkSse (pre ++ e :: post) fin) ->
  Forall not_done pre -> event e = Some (lit "done") ->
  snd (doStream u modelId apiKey s p) =
    Ok (mkPartStream (map TextDelta (output_texts pre) ++ [Finish (lit "stop") 0 0]) Closed) /\
  snd (doGenerate u modelId apiKey s p) =
    Ok (mkGenerate (concat (output_texts pre)) (lit "stop") 0 0).
Proof.
  intros Hb Hi Hs Hpre He.
  unfold doGenerate, doStream, makeLanguageModelPrediction.
  rewrite Hb, Hi, Hs. unfold pipe_transcoder; simpl.
  rewrite (run_transform_done pre e post Hpre He), output_parts_texts.
  split; [reflexivity|].
  unfold consume; simpl.
  assert (Hc : forall ts : list (list N),
            collect_output (map TextDelta ts ++ [Finish (lit "stop") 0 0]) = (ts, true)).
  { induction ts as [|t ts IH]; [reflexivity|]. simpl. rewrite IH. reflexivity. }
  rewrite Hc, js_join_nil_concat. reflexivity.
Qed.

Lemma done_shields_upstream_end_witness :
  let u := mkUpstream (InitOk (lit "u"))
             (FetchBody (mkSse [mkEvent (Some (lit "output")) (lit "a");
                                mkEvent (Some (lit "done")) [];
                                mkEvent (Some (lit "output")) (lit "b")]
                               (UpError (mkError (lit "reset"))))) in
  snd (doGenerate u (lit "o/n") (lit "k") default_settings []) =
    Ok (mkGenerate (concat (output_texts [mkEvent (Some (lit "output")) (lit "a")]))
          (lit "stop") 0 0).
Proof.
  exact (proj2 (done_shields_upstream_end
           (mkUpstream (InitOk (lit "u"))
              (FetchBody (mkSse [mkEvent (Some (lit "output")) (lit "a");
                                 mkEvent (Some (lit "done")) [];
                                 mkEvent (Some (lit "output")) (lit "b")]
                                (UpError (mkError (lit "reset"))))))
           (lit "o/n") (lit "k") default_settings [] _ _ (lit "u")
           [mkEvent (Some (lit "output")) (lit "a")] (mkEvent (Some (lit "done")) [])
           [mkEvent (Some (lit "output")) (lit "b")] (UpError (mkError (lit "reset")))
           eq_refl eq_refl eq_refl
           ltac:(repeat constructor; unfold not_done; simpl; discriminate) eq_refl)).
Defined.

(** An upstream failure before any [done] event reaches both entry points:
    [doStream]'s stream yields the text deltas received and then fails with
    the error, and [doGenerate] fails with it. *)
Theorem upstream_error_before_done (u : upstream) (modelId apiKey : list N) (s : settings)
    (p : prompt) (path : list N) (b : body) (url : list N) (evs : list parsed_event)
    (err : error) :
  build_request modelId s p = Ok (path, b) ->
  init_response_of u = InitOk url ->
  stream_response_of u = FetchBody (mkSse evs (UpError err)) ->
  Forall not_done evs ->
  snd (doStream u modelId apiKey s p) =
    Ok (mkPartStream (map TextDelta (output_texts evs)) (Errored err)) /\
  snd (doGenerate u modelId apiKey s p) = Err err.
Proof.
  intros Hb Hi Hs Hevs.
  unfold doGenerate, doStream, makeLanguageModelPrediction.
  rewrite Hb, Hi, Hs. unfold pipe_transcoder; simpl.
  rewrite (run_transform_no_done evs Hevs), output_parts_texts.
  split; [reflexivity|].
  unfold consume; simpl. rewrite collect_output_map. reflexivity.
Qed.

Lemma upstream_error_before_done_witness :
  snd (doGenerate (mkUpstream (InitOk (lit "u"))
                     (FetchBody (mkSse [mkEvent (Some (lit "output")) (lit "a")]
                                       (UpError (mkError (lit "reset"))))))
         (lit "o/n") (lit "k") default_settings []) = Err (mkError (lit "reset")).
Proof.
  exact (proj2 (upstream_error_before_done
           (mkUpstream (InitOk (lit "u"))
              (FetchBody (mkSse [mkEvent (Some (lit "output")) (lit "a")]
                                (UpError (mkError (lit "reset"))))))
           (lit "o/n") (lit "k") default_settings [] _ _ (lit "u")
           [mkEvent (Some (lit "output")) (lit "a")] (mkError (lit "reset"))
           eq_refl eq_refl eq_refl
           ltac:(repeat constructor; unfold not_done; simpl; discriminate))).
Defined.

Lemma transformSystemPrompt_none_iff_witness :
  Forall (fun msg => is_system msg = false) [UserMsg [TextPart (lit "hi")]; ToolMsg []] /\
  transformSystemPrompt [UserMsg [TextPart (lit "hi")]; ToolMsg []] = None.
Proof.
  assert (H : Forall (fun msg => is_system msg = false)
                [UserMsg [TextPart (lit "hi")]; ToolMsg []]).
  { repeat constructor. }
  split; [exact H|].
  exact (proj2 (proj1 (transformSystemPrompt_none_iff
                         [UserMsg [TextPart (lit "hi")]; ToolMsg []])) H).
Defined.
